(** * Lost-item ingestion pipeline: normalizer, embedding fusion, worker

    A shallow embedding of the CLIP service of the repository
    (src/clip-service): [message_converter.py], [clip_handler_enhanced.py],
    [minio_handler.py], [main.py] and [main_enhanced.py].

    Conventions of the embedding.
    - A Python [str] is the list of its code points ([list N]).
    - A Python exception is a value of [exn]; a call that may raise returns
      a [res].
    - A dictionary is a [gmap string pyval]; the key is the UTF-8 spelling
      of the Python key.
    - numpy arrays of floats are lists of real numbers: arithmetic is exact,
      rounding is not modelled.  A division by zero yields the IEEE value
      numpy yields ([NaN] or an infinity).
    - The encoder, the object store, the channel, the clock and the URL
      library are collaborators: fields of a record the workers take.

    The definitions come first, module by module after the source files;
    the lemmas and the theorems on the claims C1 to C10 follow. *)

From Stdlib Require Import Reals Lra.
From stdpp Require Import gmap strings list fin_maps.

(** ** Exceptions and results *)

Inductive exn :=
| JSONDecodeError
| UnicodeDecodeError
| UnicodeEncodeError
| AttributeError
| TypeError
| ValueError
| RuntimeError
| S3Error
| AMQPError
| OtherError.

Inductive res (A : Type) :=
| Ok (a : A)
| Raise (e : exn).
Arguments Ok {A} a.
Arguments Raise {A} e.

Definition rbind {A B} (r : res A) (k : A -> res B) : res B :=
  match r with
  | Ok a => k a
  | Raise e => Raise e
  end.

Notation "x <- r ;; k" := (rbind r (fun x => k))
  (at level 100, r at next level, right associativity).

(** [except Exception: return d] around a call. *)
Definition catch_all {A} (r : res A) (d : A) : A :=
  match r with
  | Ok a => a
  | Raise _ => d
  end.

Definition is_json_decode_error (e : exn) : bool :=
  match e with
  | JSONDecodeError => true
  | _ => false
  end.

(** ** Python strings *)

Module Str.

#[local] Open Scope N_scope.

Abbreviation pystr := (list N).

(** An ASCII literal as a Python string. *)
Definition u (s : string) : pystr :=
  (fun a => Ascii.N_of_ascii a) <$> String.list_ascii_of_string s.

Definition NUL : N := 0.
Definition TAB : N := 9.
Definition LF : N := 10.
Definition CR : N := 13.
Definition SPACE : N := 32.
Definition DOT : N := 46.
Definition SLASH : N := 47.
Definition BACKSLASH : N := 92.

(** The characters [str.strip()] removes and the regular expression class
    [\s] matches on a [str] (CPython's [Py_UNICODE_ISSPACE]). *)
Definition isspace (c : N) : bool :=
  ((9 <=? c) && (c <=? 13)) || ((28 <=? c) && (c <=? 32))
  || (c =? 133) || (c =? 160) || (c =? 5760)
  || ((8192 <=? c) && (c <=? 8202))
  || (c =? 8232) || (c =? 8233) || (c =? 8239) || (c =? 8287)
  || (c =? 12288).

Definition is_slash (c : N) : bool := c =? SLASH.

Fixpoint lstrip (p : N -> bool) (s : pystr) : pystr :=
  match s with
  | [] => []
  | c :: t => if p c then lstrip p t else s
  end.

Definition rstrip (p : N -> bool) (s : pystr) : pystr :=
  reverse (lstrip p (reverse s)).

(** [s.strip()] is [strip isspace s]; [s.strip('/')] is [strip is_slash s]. *)
Definition strip (p : N -> bool) (s : pystr) : pystr :=
  rstrip p (lstrip p s).

(** [s.replace(old, new)] for one-character [old] and [new]. *)
Definition replace (old new : N) (s : pystr) : pystr :=
  (fun c => if c =? old then new else c) <$> s.

Definition starts_with (p : N -> bool) (s : pystr) : bool :=
  match s with
  | [] => false
  | c :: _ => p c
  end.

(** [re.sub(r'C+', r, s)] for a character class [C] given as [p] and a
    one-character replacement [r]: every maximal run of [p]-characters
    becomes one [r]. *)
Fixpoint squeeze (p : N -> bool) (r : N) (s : pystr) : pystr :=
  match s with
  | [] => []
  | c :: t =>
      if p c
      then (if starts_with p t then squeeze p r t else r :: squeeze p r t)
      else c :: squeeze p r t
  end.

(** [sep.join(parts)]. *)
Fixpoint join (sep : pystr) (parts : list pystr) : pystr :=
  match parts with
  | [] => []
  | [x] => x
  | x :: rest => x ++ sep ++ join sep rest
  end.

(** [needle in s] for strings. *)
Fixpoint is_prefix (a s : pystr) : bool :=
  match a, s with
  | [], _ => true
  | x :: a', y :: s' => (x =? y) && is_prefix a' s'
  | _ :: _, [] => false
  end.

Fixpoint contains (needle s : pystr) : bool :=
  is_prefix needle s ||
  match s with
  | [] => false
  | _ :: t => contains needle t
  end.

(** [s.split('/', 1)]: [None] when there is no separator (the list has one
    element), the two parts otherwise. *)
Fixpoint split_once (sep : N) (s : pystr) : option (pystr * pystr) :=
  match s with
  | [] => None
  | c :: t =>
      if c =? sep then Some ([], t)
      else match split_once sep t with
           | Some (a, b) => Some (c :: a, b)
           | None => None
           end
  end.

Fixpoint take_until (sep : N) (s : pystr) : pystr :=
  match s with
  | [] => []
  | c :: t => if c =? sep then [] else c :: take_until sep t
  end.

(** [s.split('/')[-1]]. *)
Definition last_segment (sep : N) (s : pystr) : pystr :=
  reverse (take_until sep (reverse s)).

(** Number of bytes one code point takes in UTF-8; a surrogate has no
    encoding ([str.encode] raises [UnicodeEncodeError]). *)
Definition utf8_width (c : N) : res nat :=
  if c <? 128 then Ok 1%nat
  else if c <? 2048 then Ok 2%nat
  else if (55296 <=? c) && (c <=? 57343) then Raise UnicodeEncodeError
  else if c <? 65536 then Ok 3%nat
  else Ok 4%nat.

(** [len(s.encode('utf-8'))]. *)
Fixpoint utf8_len (s : pystr) : res nat :=
  match s with
  | [] => Ok 0%nat
  | c :: t =>
      w <- utf8_width c ;;
      n <- utf8_len t ;;
      Ok (w + n)%nat
  end.

(** *** Vocabulary of the properties *)

Definition ends_with (p : N -> bool) (s : pystr) : bool :=
  match last s with
  | Some c => p c
  | None => false
  end.

(** No character of the class [p] at either end. *)
Definition trimmed (p : N -> bool) (s : pystr) : Prop :=
  starts_with p s = false /\ ends_with p s = false.

(** Every character of the class [p] is the character [r] and is not
    followed by another character of the class. *)
Fixpoint single_spaced (p : N -> bool) (r : N) (s : pystr) : bool :=
  match s with
  | [] => true
  | c :: t =>
      (if p c then (c =? r) && negb (starts_with p t) else true)
      && single_spaced p r t
  end.

(** [s.split()] for the class [p]: the maximal runs of characters outside
    the class; [cur] is the run being read. *)
Fixpoint words_from (p : N -> bool) (cur s : pystr) : list pystr :=
  match s with
  | [] => match cur with [] => [] | _ :: _ => [cur] end
  | c :: t =>
      if p c
      then match cur with
           | [] => words_from p [] t
           | _ :: _ => cur :: words_from p [] t
           end
      else words_from p (cur ++ [c]) t
  end.

Definition words (p : N -> bool) (s : pystr) : list pystr := words_from p [] s.

End Str.
Import Str.

(** ** numpy arrays of floats *)

Module Np.

#[local] Open Scope R_scope.

(** An element of an array a numpy operation returns: a real, or one of the
    IEEE values a division by zero produces. *)
Inductive npfloat :=
| Fin (r : R)
| PosInf
| NegInf
| NaN.

(** [k * v] for a scalar [k]. *)
Definition scale (k : R) (v : list R) : list R := Rmult k <$> v.

(** [a + b] on one-dimensional arrays: element-wise on equal lengths, an
    array of length one is broadcast, any other pair of shapes raises
    [ValueError]. *)
Definition add (a b : list R) : res (list R) :=
  if decide (length a = length b) then Ok (zip_with Rplus a b)
  else match a, b with
       | [x], _ => Ok ((fun y => x + y) <$> b)
       | _, [y] => Ok ((fun x => x + y) <$> a)
       | _, _ => Raise ValueError
       end.

(** [x / y] on floats the way numpy divides: no exception, [0/0] is [nan]
    and [x/0] an infinity of the sign of [x] (the divisors of this program
    are norms and the constant 2, never a negative zero). *)
Definition fdiv (x y : R) : npfloat :=
  if Req_dec_T y 0
  then (if Req_dec_T x 0 then NaN
        else if Rlt_dec 0 x then PosInf else NegInf)
  else Fin (x / y).

(** [v / n] for a scalar [n]. *)
Definition div_scalar (v : list R) (n : R) : list npfloat :=
  (fun x => fdiv x n) <$> v.

Definition sumsq (v : list R) : R :=
  foldr (fun x acc => x * x + acc) 0 v.

(** [np.linalg.norm(v)]. *)
Definition norm (v : list R) : R := sqrt (sumsq v).

(** [np.dot(a, b)] on one-dimensional arrays. *)
Definition dot (a b : list R) : res R :=
  if decide (length a = length b)
  then Ok (foldr Rplus 0 (zip_with Rmult a b))
  else Raise ValueError.

(** [arr.tolist()] of an array of finite floats. *)
Definition tolist (v : list R) : list npfloat := Fin <$> v.

(** An array all of whose elements are finite, of Euclidean norm one. *)
Definition unit_norm (a : list npfloat) : Prop :=
  exists v : list R, a = tolist v /\ norm v = 1.

End Np.

(** ** clip_handler_enhanced.py *)

Module CLIPHandler.

#[local] Open Scope R_scope.

(** [CLIPHandler.combine_embeddings]. *)
Definition combine_embeddings
    (text_embedding image_embedding : list R) (text_weight : R)
    : res (list Np.npfloat) :=
  if Rle_dec 0 text_weight then
    if Rle_dec text_weight 1 then
      let image_weight := 1 - text_weight in
      combined <- Np.add (Np.scale text_weight text_embedding)
                         (Np.scale image_weight image_embedding) ;;
      Ok (Np.div_scalar combined (Np.norm combined))
    else Raise ValueError
  else Raise ValueError.

(** [CLIPHandler.compute_similarity]. *)
Definition compute_similarity (text_embedding image_embedding : list R) : res R :=
  Np.dot text_embedding image_embedding.

(** The combination the specification describes:
    [w*textVec + (1-w)*imageVec] element-wise, divided by its own norm. *)
Definition weighted_unit (w : R) (textVec imageVec : list R) : list Np.npfloat :=
  let c := zip_with (fun x y => w * x + (1 - w) * y) textVec imageVec in
  Np.div_scalar c (Np.norm c).

End CLIPHandler.

(** ** Python values *)

Module Py.

(** A value found in a message dictionary ([Dict[str, Any]]): [None], a
    [str], or any other object, of which the program only uses the truth
    value and the outcome of [str()]. *)
Inductive pyval :=
| PNone
| PStr (s : pystr)
| PObj (b : bool) (repr : res pystr).

(** [bool(v)]. *)
Definition truthy (v : pyval) : bool :=
  match v with
  | PNone => false
  | PStr [] => false
  | PStr (_ :: _) => true
  | PObj b _ => b
  end.

(** [str(v)], also what an f-string field [{v}] expands to. *)
Definition py_str (v : pyval) : res pystr :=
  match v with
  | PNone => Ok (u "None")
  | PStr s => Ok s
  | PObj _ r => r
  end.

Definition nonempty (s : pystr) : bool :=
  match s with
  | [] => false
  | _ :: _ => true
  end.

(** [d.get(k, dflt)]. *)
Definition get (d : gmap string pyval) (k : string) (dflt : pyval) : pyval :=
  default dflt (d !! k).

(** [d.setdefault(k, v)] as a dictionary update. *)
Definition setdefault (k : string) (v : pyval) (d : gmap string pyval)
    : gmap string pyval :=
  match d !! k with
  | Some _ => d
  | None => <[k := v]> d
  end.

(** A value [json.loads] returns inside an object: [null], a string, or
    another JSON value, whose [str()] never raises. *)
Inductive jval :=
| JNull
| JStr (s : pystr)
| JOther (b : bool) (repr : pystr).

Definition of_json (j : jval) : pyval :=
  match j with
  | JNull => PNone
  | JStr s => PStr s
  | JOther b r => PObj b (Ok r)
  end.

End Py.
Import Py.

(** ** message_converter.py *)

Module MessageConverter.

(** [self.stats]. *)
Record stats := {
  total_processed : nat;
  url_format : nat;
  key_format : nat;
  no_image : nat;
  errors : nat
}.

Definition initial_stats : stats :=
  {| total_processed := 0; url_format := 0; key_format := 0;
     no_image := 0; errors := 0 |}.

Definition bump_total (st : stats) : stats :=
  {| total_processed := S (total_processed st); url_format := url_format st;
     key_format := key_format st; no_image := no_image st; errors := errors st |}.

Definition bump_url (st : stats) : stats :=
  {| total_processed := total_processed st; url_format := S (url_format st);
     key_format := key_format st; no_image := no_image st; errors := errors st |}.

Definition bump_key (st : stats) : stats :=
  {| total_processed := total_processed st; url_format := url_format st;
     key_format := S (key_format st); no_image := no_image st; errors := errors st |}.

Definition bump_no_image (st : stats) : stats :=
  {| total_processed := total_processed st; url_format := url_format st;
     key_format := key_format st; no_image := S (no_image st); errors := errors st |}.

Definition bump_errors (st : stats) : stats :=
  {| total_processed := total_processed st; url_format := url_format st;
     key_format := key_format st; no_image := no_image st; errors := S (errors st) |}.

(** What the program reads of [urllib.parse.urlparse(url)]; reading
    [.port] raises [ValueError] on a malformed port. *)
Record parsed_url := {
  netloc : pystr;
  path : pystr;
  port : res (option N)
}.

(** [MessageConverter._normalize_object_key]. *)
Definition _normalize_object_key (key : pystr) : pystr :=
  let key := strip is_slash (strip isspace key) in
  let key := replace BACKSLASH SLASH key in
  squeeze is_slash SLASH key.

(** [MessageConverter._normalize_text]. *)
Definition _normalize_text (text : pyval) : res pystr :=
  match text with
  | PNone => Ok []
  | _ =>
      s <- py_str text ;;
      Ok (squeeze isspace SPACE (strip isspace s))
  end.

(** [char in key] for one of the characters of [invalid_chars]. *)
Definition invalid_chars : list N := [BACKSLASH; NUL; LF; CR; TAB].

Definition has_invalid_char (key : pystr) : bool :=
  existsb (fun char => bool_decide (char ∈ key)) invalid_chars.

(** [MessageConverter._is_valid_object_key]. *)
Definition _is_valid_object_key (key : pyval) : res bool :=
  match key with
  | PStr (c :: k) =>
      if has_invalid_char (c :: k) then Ok false
      else
        n <- utf8_len (c :: k) ;;
        Ok (negb (1024 <? n)%nat)
  | _ => Ok false
  end.

Definition MISSING_ITEM_ID : pystr := u "Missing required field: item_id".

Definition NO_TEXT_FIELD : pystr :=
  u "Message must contain at least one text field (text, description, or category)".

(** [MessageConverter.validate_message]. *)
Definition validate_message (message : gmap string pyval)
    : res (bool * option pystr) :=
  if negb (truthy (get message "item_id" PNone))
  then Ok (false, Some MISSING_ITEM_ID)
  else if negb (truthy (get message "text" PNone)
                || truthy (get message "description" PNone)
                || truthy (get message "category" PNone))
  then Ok (false, Some NO_TEXT_FIELD)
  else
    let image_key := get message "image_key" (PStr []) in
    if truthy image_key then
      valid <- _is_valid_object_key image_key ;;
      if valid then Ok (true, None)
      else
        shown <- py_str image_key ;;
        Ok (false, Some (u "Invalid image_key format: " ++ shown))
    else Ok (true, None).

(** The record [create_output_message] builds; [E] is the type of the
    elements of the embedding. *)
Record output_message (E : Type) := {
  item_id : pyval;
  embedding : list E;
  title : pyval;
  description : pyval;
  category : pyval;
  location : pyval;
  date_lost : pyval;
  image_key : pyval;
  contact_info : pyval;
  timestamp : pystr;
  has_image_embedding : bool
}.
Arguments item_id {E} _.
Arguments embedding {E} _.
Arguments title {E} _.
Arguments description {E} _.
Arguments category {E} _.
Arguments location {E} _.
Arguments date_lost {E} _.
Arguments image_key {E} _.
Arguments contact_info {E} _.
Arguments timestamp {E} _.
Arguments has_image_embedding {E} _.

(** [MessageConverter.create_output_message]. *)
Definition create_output_message {E} (input_message : gmap string pyval)
    (emb : list E) (has_image : bool) (ts : pystr) : output_message E :=
  {| item_id := get input_message "item_id" (PStr []);
     embedding := emb;
     title := get input_message "text" (PStr []);
     description := get input_message "description" (PStr []);
     category := get input_message "category" (PStr []);
     location := get input_message "location" (PStr []);
     date_lost := get input_message "date_lost" (PStr []);
     image_key := get input_message "image_key" (PStr []);
     contact_info := get input_message "contact_info" (PStr []);
     timestamp := ts;
     has_image_embedding := has_image |}.

Section WithUrlLibrary.

(** [urllib.parse.urlparse] and [str.lower]. *)
Variable urlparse : pystr -> res parsed_url.
Variable lower : pystr -> pystr.

(** The body of [_url_to_object_key], inside its [try]. *)
Definition url_to_object_key_body (url : pystr) : res (option pystr) :=
  parsed <- urlparse url ;;
  is_minio <- (if contains (u "minio") (lower (netloc parsed)) then Ok true
               else
                 p <- port parsed ;;
                 Ok (bool_decide (p = Some 9000%N))) ;;
  let from_bucket :=
    if is_minio
    then match split_once SLASH (strip is_slash (path parsed)) with
         | Some (_, object_key) => Some object_key
         | None => None
         end
    else None in
  match from_bucket with
  | Some object_key => Ok (Some object_key)
  | None =>
      if nonempty (path parsed) then
        let filename := last_segment SLASH (path parsed) in
        if nonempty filename && bool_decide (DOT ∈ filename)
        then Ok (Some (u "items/" ++ filename))
        else Ok None
      else Ok None
  end.

(** [MessageConverter._url_to_object_key]: every exception becomes [None]. *)
Definition _url_to_object_key (url : pystr) : option pystr :=
  catch_all (url_to_object_key_body url) None.

Definition count_no_image (st : stats) : res pystr * stats :=
  (Ok [], bump_no_image st).

(** The second and third branch of [_extract_image_key]. *)
Definition extract_from_url (message : gmap string pyval) (st : stats)
    : res pystr * stats :=
  let v := get message "image_url" PNone in
  if truthy v then
    match py_str v with
    | Raise e => (Raise e, st)
    | Ok s =>
        let image_url := strip isspace s in
        if nonempty image_url then
          match _url_to_object_key image_url with
          | Some (c :: k) => (Ok (c :: k), bump_url st)
          | _ => (Ok [], bump_errors st)
          end
        else count_no_image st
    end
  else count_no_image st.

(** [MessageConverter._extract_image_key]. *)
Definition _extract_image_key (message : gmap string pyval) (st : stats)
    : res pystr * stats :=
  let v := get message "image_key" PNone in
  if truthy v then
    match py_str v with
    | Raise e => (Raise e, st)
    | Ok s =>
        let image_key := strip isspace s in
        if nonempty image_key
        then (Ok (_normalize_object_key image_key), bump_key st)
        else extract_from_url message st
    end
  else extract_from_url message st.

(** [', '.join(parts)] of the truthy ones of e-mail and phone. *)
Definition contact_parts (email phone : pyval) : res (list pystr) :=
  e <- (if truthy email then s <- py_str email ;; Ok [s] else Ok []) ;;
  p <- (if truthy phone then s <- py_str phone ;; Ok [s] else Ok []) ;;
  Ok (e ++ p).

(** The statements of [normalize_message] after the image key is known. *)
Definition normalize_fields (message : gmap string pyval) (image_key : pystr)
    : res (gmap string pyval) :=
  let normalized := <["image_key" := PStr image_key]> message in
  let normalized := delete "image_url" normalized in
  text <- _normalize_text (get message "text" (PStr [])) ;;
  let normalized := <["text" := PStr text]> normalized in
  description <- _normalize_text (get message "description" (PStr [])) ;;
  let normalized := <["description" := PStr description]> normalized in
  category <- _normalize_text (get message "category" (PStr [])) ;;
  let normalized := <["category" := PStr category]> normalized in
  location <- _normalize_text (get message "location" (PStr [])) ;;
  let normalized := <["location" := PStr location]> normalized in
  let normalized := setdefault "item_id" (PStr []) normalized in
  let normalized := setdefault "date_lost" (PStr []) normalized in
  if negb (truthy (get normalized "contact_info" PNone)) then
    parts <- contact_parts (get normalized "contact_email" (PStr []))
                           (get normalized "contact_phone" (PStr [])) ;;
    Ok (<["contact_info" := PStr (join (u ", ") parts)]> normalized)
  else Ok (setdefault "contact_info" (PStr []) normalized).

(** The body of [normalize_message], inside its [try]. *)
Definition normalize_body (message : gmap string pyval) (st : stats)
    : res (gmap string pyval) * stats :=
  let st := bump_total st in
  match _extract_image_key message st with
  | (Raise e, st) => (Raise e, st)
  | (Ok image_key, st) => (normalize_fields message image_key, st)
  end.

(** [MessageConverter.normalize_message]: on an exception the error counter
    is incremented and the message is returned as it came. *)
Definition normalize_message (message : gmap string pyval) (st : stats)
    : gmap string pyval * stats :=
  match normalize_body message st with
  | (Ok normalized, st) => (normalized, st)
  | (Raise _, st) => (message, bump_errors st)
  end.

End WithUrlLibrary.

End MessageConverter.

(** ** minio_handler.py *)

Module MinIOHandler.

(** The object-storage client and the file system, as [download_image]
    uses them. *)
Record client := {
  (** [client.stat_object(bucket, name).size], in bytes *)
  stat_object : pystr -> res N;
  (** [client.fget_object(bucket, name, file_path)] *)
  fget_object : pystr -> pystr -> res unit;
  (** [Image.open(file_path)] followed by [img.verify()] *)
  image_verify : pystr -> res unit;
  (** [Path(name).suffix] *)
  path_suffix : pystr -> pystr;
  (** [str(tmp_dir / filename)] *)
  tmp_path : pystr -> pystr
}.

Definition max_size_bytes : N := 10 * 1024 * 1024.

(** [tmp_dir / f"{item_id}_minio{file_extension}"], where the extension is
    [Path(object_name).suffix or '.jpg']; [id] is [str(item_id)]. *)
Definition local_file (c : client) (name id : pystr) : pystr :=
  let file_extension :=
    if nonempty (path_suffix c name) then path_suffix c name else u ".jpg" in
  tmp_path c (id ++ u "_minio" ++ file_extension).

(** The body of [download_image], inside its outer [try]; [max_size_mb]
    has its default value 10.  An [object_name] that is not a [str] makes
    the client raise. *)
Definition download_body (c : client) (object_name item_id : pyval)
    : res (option pystr) :=
  match object_name with
  | PStr name =>
      match stat_object c name with
      | Raise S3Error => Ok None
      | Raise e => Raise e
      | Ok size =>
          if (max_size_bytes <? size)%N then Ok None
          else
            id <- py_str item_id ;;
            let file_path := local_file c name id in
            _ <- fget_object c name file_path ;;
            match image_verify c file_path with
            | Ok _ => Ok (Some file_path)
            | Raise _ => Ok None
            end
      end
  | _ => Raise TypeError
  end.

(** [MinIOHandler.download_image]: the path of the downloaded file, or
    [None]; no exception leaves it. *)
Definition download_image (c : client) (object_name item_id : pyval)
    : option pystr :=
  catch_all (download_body c object_name item_id) None.

End MinIOHandler.

(** ** The queue, the encoder and the workers *)

Module Worker.

Import MessageConverter.

(** What [json.loads(body.decode('utf-8'))] makes of the payload bytes. *)
Inductive payload :=
| BadUtf8
| BadJson
| JsonOther
| JsonObject (raw : gmap string jval).

(** A call the worker issues on the channel. *)
Inductive call :=
| PublishCall (r : output_message Np.npfloat)
| AckCall
| NackCall (requeue : bool).

(** The collaborators of one worker. *)
Record collaborators := {
  (** [clip_handler.encode_text(text)] *)
  encode_text : pystr -> res (list R);
  (** [clip_handler.encode_image(image_path)] *)
  encode_image : pystr -> res (list R);
  (** the client of [minio_handler] *)
  minio : MinIOHandler.client;
  (** [json.dumps] of the record, then [channel.basic_publish] *)
  basic_publish : output_message Np.npfloat -> res unit;
  (** [ch.basic_ack(delivery_tag)] *)
  basic_ack : res unit;
  (** [ch.basic_nack(delivery_tag, requeue)] *)
  basic_nack : bool -> res unit;
  (** [datetime.utcnow().isoformat()] *)
  utcnow : pystr;
  (** [urllib.parse.urlparse] and [str.lower], for the converter *)
  urlparse : pystr -> res parsed_url;
  lower : pystr -> pystr
}.

(** What one run of [process_message] leaves behind: the calls issued on
    the channel, in order, and the exception that left the callback, if
    any. *)
Record outcome := {
  calls : list call;
  escaped : option exn
}.

(** The two [except] clauses of [process_message]: a JSON decoding error
    is rejected without requeue, anything else is requeued. *)
Definition on_exception (E : collaborators) (issued : list call) (e : exn)
    : outcome :=
  let requeue := negb (is_json_decode_error e) in
  {| calls := issued ++ [NackCall requeue];
     escaped := match basic_nack E requeue with
                | Ok _ => None
                | Raise e' => Some e'
                end |}.

(** The end of the [try] block and its handlers. *)
Definition finish (E : collaborators) (issued : list call) (r : res unit)
    : outcome :=
  match r with
  | Ok _ => {| calls := issued; escaped := None |}
  | Raise e => on_exception E issued e
  end.

(** [ch.basic_ack(...)] as the last statement of the [try] block. *)
Definition ack_and_finish (E : collaborators) (issued : list call) : outcome :=
  finish E (issued ++ [AckCall]) (basic_ack E).

(** Publish the record, then acknowledge. *)
Definition publish_and_ack (E : collaborators)
    (r : output_message Np.npfloat) : outcome :=
  match basic_publish E r with
  | Raise e => on_exception E [PublishCall r] e
  | Ok _ => ack_and_finish E [PublishCall r]
  end.

End Worker.

(** ** main.py *)

Module Main.

Import MessageConverter Worker.

#[local] Open Scope R_scope.

(** The f-string [f"{text}. {description}. Category: {category}"]. *)
Definition combined_text (message : gmap string pyval) : res pystr :=
  text <- py_str (get message "text" (PStr [])) ;;
  description <- py_str (get message "description" (PStr [])) ;;
  category <- py_str (get message "category" (PStr [])) ;;
  Ok (text ++ u ". " ++ description ++ u ". Category: " ++ category).

Definition text_stage (E : collaborators) (message : gmap string pyval)
    : res (list R) :=
  txt <- combined_text message ;;
  encode_text E txt.

(** The body of the [try] around the image download and encoding. *)
Definition image_body (E : collaborators) (message : gmap string pyval)
    : res (option (list R)) :=
  match MinIOHandler.download_image (minio E)
          (get message "image_key" (PStr [])) (get message "item_id" PNone) with
  | Some image_path =>
      v <- encode_image E image_path ;;
      Ok (Some v)
  | None => Ok None
  end.

(** [image_embedding] after the image block: [None] without an image key,
    and [None] when anything in the block raised. *)
Definition image_stage (E : collaborators) (message : gmap string pyval)
    : option (list R) :=
  if truthy (get message "image_key" (PStr []))
  then catch_all (image_body E message) None
  else None.

(** [final_embedding]: the mean of the two embeddings, or the text
    embedding. *)
Definition fuse (text_embedding : list R) (image_embedding : option (list R))
    : res (list Np.npfloat) :=
  match image_embedding with
  | Some image_embedding =>
      total <- Np.add text_embedding image_embedding ;;
      Ok (Np.div_scalar total 2)
  | None => Ok (Np.tolist text_embedding)
  end.

(** The run on a message that passed validation. *)
Definition embed_and_publish (E : collaborators)
    (message : gmap string pyval) : outcome :=
  match text_stage E message with
  | Raise e => on_exception E [] e
  | Ok text_embedding =>
      let image_embedding := image_stage E message in
      match fuse text_embedding image_embedding with
      | Raise e => on_exception E [] e
      | Ok final_embedding =>
          publish_and_ack E
            (create_output_message message final_embedding
               (bool_decide (is_Some image_embedding)) (utcnow E))
      end
  end.

(** The run from the normalized message on. *)
Definition handle_normalized (E : collaborators)
    (message : gmap string pyval) : outcome :=
  match validate_message message with
  | Raise e => on_exception E [] e
  | Ok (false, _) => ack_and_finish E []
  | Ok (true, _) => embed_and_publish E message
  end.

(** [CLIPService.process_message] of main.py. *)
Definition process_message (E : collaborators) (body : payload) (st : stats)
    : outcome * stats :=
  match body with
  | BadUtf8 => (on_exception E [] UnicodeDecodeError, st)
  | BadJson => (on_exception E [] JSONDecodeError, st)
  | JsonOther => (on_exception E [] AttributeError, st)
  | JsonObject raw_message =>
      let '(message, st) :=
        normalize_message (urlparse E) (lower E) (of_json <$> raw_message) st in
      (handle_normalized E message, st)
  end.

End Main.

(** ** main_enhanced.py *)

Module MainEnhanced.

Import MessageConverter Worker.

#[local] Open Scope R_scope.

(** [self.stats] of the enhanced service. *)
Record stats := {
  processed : nat;
  with_images : nat;
  text_only : nat;
  errors : nat
}.

Definition initial_stats : stats :=
  {| processed := 0; with_images := 0; text_only := 0; errors := 0 |}.

Definition bump_processed (st : stats) : stats :=
  {| processed := S (processed st); with_images := with_images st;
     text_only := text_only st; errors := errors st |}.

Definition bump_with_images (st : stats) : stats :=
  {| processed := processed st; with_images := S (with_images st);
     text_only := text_only st; errors := errors st |}.

Definition bump_text_only (st : stats) : stats :=
  {| processed := processed st; with_images := with_images st;
     text_only := S (text_only st); errors := errors st |}.

Definition bump_errors (st : stats) : stats :=
  {| processed := processed st; with_images := with_images st;
     text_only := text_only st; errors := S (errors st) |}.

(** The expected embedding dimension, the literal 512 of the source. *)
Definition EXPECTED_DIM : nat := 512.

(** The text weight the service passes to [combine_embeddings]. *)
Definition TEXT_WEIGHT : R := 0.6.

(** [TextPreprocessor.normalize_text]. *)
Definition normalize_text (lower : pystr -> pystr) (text : pystr) : pystr :=
  strip isspace (squeeze isspace SPACE (lower text)).

(** One optional part of the enhanced text: [fmt] applied to [str(v)] when
    [v] is truthy. *)
Definition part_of (v : pyval) (fmt : pystr -> pystr) : res (list pystr) :=
  if truthy v then s <- py_str v ;; Ok [fmt s] else Ok [].

(** [TextPreprocessor.create_enhanced_text]. *)
Definition create_enhanced_text (lower : pystr -> pystr)
    (title description category location : pyval) : res pystr :=
  p1 <- part_of title (fun s => s ++ u " " ++ s) ;;
  p2 <- part_of description (fun s => s) ;;
  p3 <- part_of category (fun s => u "kategoria: " ++ s) ;;
  p4 <- part_of location (fun s => u "miejsce: " ++ s) ;;
  Ok (normalize_text lower (join (u " ") (p1 ++ p2 ++ p3 ++ p4))).

Definition text_stage (E : collaborators) (message : gmap string pyval)
    : res (list R) :=
  enhanced_text <- create_enhanced_text (lower E)
                     (get message "title" (PStr []))
                     (get message "description" (PStr []))
                     (get message "category" (PStr []))
                     (get message "location" (PStr [])) ;;
  encode_text E enhanced_text.

(** The image block: [image_embedding] after it, and whether the block
    reached its last statement, which counts the image.  The similarity is
    computed after [image_embedding] is assigned, so an exception of
    [np.dot] leaves the assignment in place. *)
Definition image_stage (E : collaborators) (text_embedding : list R)
    (message : gmap string pyval) : option (list R) * bool :=
  if truthy (get message "image_key" (PStr [])) then
    match MinIOHandler.download_image (minio E)
            (get message "image_key" (PStr [])) (get message "item_id" PNone) with
    | Some image_path =>
        match encode_image E image_path with
        | Ok image_embedding =>
            match CLIPHandler.compute_similarity text_embedding image_embedding with
            | Ok _ => (Some image_embedding, true)
            | Raise _ => (Some image_embedding, false)
            end
        | Raise _ => (None, false)
        end
    | None => (None, false)
    end
  else (None, false).

(** [final_embedding]: the weighted combination, or the text embedding. *)
Definition fuse (text_embedding : list R) (image_embedding : option (list R))
    : res (list Np.npfloat) :=
  match image_embedding with
  | Some image_embedding =>
      CLIPHandler.combine_embeddings text_embedding image_embedding TEXT_WEIGHT
  | None => Ok (Np.tolist text_embedding)
  end.

(** [if len(final_embedding) != 512: raise ValueError(...)]. *)
Definition check_dimension (final_embedding : list Np.npfloat) : res unit :=
  if decide (length final_embedding = EXPECTED_DIM) then Ok tt
  else Raise ValueError.

(** A run of the [try] block: the calls issued, how the block ended, and
    the counters. *)
Definition block : Type := list call * res unit * stats.

(** The [try] block from the converted message on. *)
Definition embed_and_publish (E : collaborators)
    (message : gmap string pyval) (st : stats) : block :=
  match text_stage E message with
  | Raise e => ([], Raise e, st)
  | Ok text_embedding =>
      let '(image_embedding, counted) := image_stage E text_embedding message in
      let st := if counted then bump_with_images st else st in
      match fuse text_embedding image_embedding with
      | Raise e => ([], Raise e, st)
      | Ok final_embedding =>
          let st := if bool_decide (is_Some image_embedding) then st
                    else bump_text_only st in
          match check_dimension final_embedding with
          | Raise e => ([], Raise e, st)
          | Ok _ =>
              let r := create_output_message message final_embedding
                         (bool_decide (is_Some image_embedding))
                         (utcnow E ++ u "Z") in
              match basic_publish E r with
              | Raise e => ([PublishCall r], Raise e, st)
              | Ok _ => ([PublishCall r; AckCall], basic_ack E, bump_processed st)
              end
          end
      end
  end.

Section WithConverter.

(** main_enhanced.py calls [self.message_converter.convert_to_normalized],
    which message_converter.py does not define.  The method is a parameter
    of the embedding: any function of the raw dictionary that returns a
    dictionary or [None], or raises.  On the sources as they stand the
    attribute lookup raises, the instance [fun _ => Raise AttributeError]. *)
Variable convert_to_normalized :
  gmap string jval -> res (option (gmap string pyval)).

(** The [try] block of [process_message]. *)
Definition try_block (E : collaborators) (body : payload) (st : stats) : block :=
  match body with
  | BadUtf8 => ([], Raise UnicodeDecodeError, st)
  | BadJson => ([], Raise JSONDecodeError, st)
  | JsonOther => ([], Raise AttributeError, st)
  | JsonObject raw_message =>
      match convert_to_normalized raw_message with
      | Raise e => ([], Raise e, st)
      | Ok None => ([NackCall false], basic_nack E false, st)
      | Ok (Some message) =>
          if bool_decide (size message = 0%nat)
          then ([NackCall false], basic_nack E false, st)
          else embed_and_publish E message st
      end
  end.

(** [CLIPService.process_message] of main_enhanced.py. *)
Definition process_message (E : collaborators) (body : payload) (st : stats)
    : outcome * stats :=
  match try_block E body st with
  | (issued, Ok _, st) => ({| calls := issued; escaped := None |}, st)
  | (issued, Raise e, st) => (on_exception E issued e, bump_errors st)
  end.

End WithConverter.

End MainEnhanced.

(** ** Vocabulary of the claims on the converter *)

Module Claims.

Import MessageConverter.

(** [len(key.encode('utf-8')) > 1024] where the encoding exists. *)
Definition too_long (key : pystr) : bool :=
  match utf8_len key with
  | Ok n => (1024 <? n)%nat
  | Raise _ => false
  end.

(** The conditions under which validation rejects a message, for a given
    list of forbidden characters: no item id, no text at all, or a truthy
    image key that is not a string, holds a forbidden character or is too
    long. *)
Definition rejected (forbidden : list N) (message : gmap string pyval) : bool :=
  negb (truthy (get message "item_id" PNone))
  || negb (truthy (get message "text" PNone)
           || truthy (get message "description" PNone)
           || truthy (get message "category" PNone))
  || (truthy (get message "image_key" (PStr []))
      && match get message "image_key" (PStr []) with
         | PStr key =>
             existsb (fun c => bool_decide (c ∈ key)) forbidden || too_long key
         | _ => true
         end).

(** The forbidden characters the specification lists. *)
Definition spec_forbidden : list N := [NUL; LF; CR; TAB].

(** An image key on which validation cannot raise: absent or [None], a
    string without surrogate code points, or an object whose [str()]
    returns. *)
Definition scalar_key (v : pyval) : bool :=
  match v with
  | PNone => true
  | PStr s => forallb (fun c => negb ((55296 <=? c) && (c <=? 57343))%N) s
  | PObj _ (Ok _) => true
  | PObj _ (Raise _) => false
  end.

(** The value [str()] gives for a raw field, the empty string for a missing
    field and for [null]. *)
Definition raw_text (j : option jval) : pystr :=
  match j with
  | None | Some JNull => []
  | Some (JStr s) => s
  | Some (JOther _ r) => r
  end.

(** A text field of the normalized message: the words of the raw value
    joined by single spaces. *)
Definition text_field_ok (raw : gmap string jval)
    (normalized : gmap string pyval) (field : string) : Prop :=
  let s := join [SPACE] (words isspace (raw_text (raw !! field))) in
  normalized !! field = Some (PStr s)
  /\ trimmed isspace s
  /\ single_spaced isspace SPACE s = true.

(** A field the specification calls normalized: a string, trimmed and
    single-spaced. *)
Definition clean_string (v : option pyval) : Prop :=
  exists s, v = Some (PStr s) /\ trimmed isspace s
            /\ single_spaced isspace SPACE s = true.


(** The normalized form of a raw message in the worker [E]. *)
Definition normalized (E : Worker.collaborators) (raw : gmap string jval)
    (st : stats) : gmap string pyval :=
  (normalize_message (Worker.urlparse E) (Worker.lower E) (of_json <$> raw) st).1.

(** The run of main.py on a JSON object. *)
Definition main_run (E : Worker.collaborators) (raw : gmap string jval)
    (st : stats) : Worker.outcome :=
  (Main.process_message E (Worker.JsonObject raw) st).1.



End Claims.

(** ** Concrete inputs *)

Module Demo.

Import MessageConverter.

(** A URL library that parses nothing. *)
Definition no_urlparse (url : pystr) : res parsed_url := Raise ValueError.

Definition same_case (s : pystr) : pystr := s.

(** [{'item_id': 'test222', 'text': 'Lost item', 'image_key': 'items/test.jpg'}] *)
Definition valid_message : gmap string pyval :=
  <["item_id" := PStr (u "test222")]>
    (<["text" := PStr (u "Lost item")]>
       (<["image_key" := PStr (u "items/test.jpg")]> ∅)).

(** [{'item_id': 'x', 'text': 't', 'image_key': 'a\\b'}] *)
Definition backslash_message : gmap string pyval :=
  <["item_id" := PStr (u "x")]>
    (<["text" := PStr (u "t")]>
       (<["image_key" := PStr (u "a\b")]> ∅)).

(** [{"date_lost": " x"}] *)
Definition date_message : gmap string jval :=
  <["date_lost" := JStr (u " x")]> ∅.

(** [{"item_id": "test456", "text": "Lost wallet", "image_url": "wallet.jpg"}] *)
Definition legacy_message : gmap string pyval :=
  <["item_id" := PStr (u "test456")]>
    (<["text" := PStr (u "Lost wallet")]>
       (<["image_url" := PStr (u "wallet.jpg")]> ∅)).

(** A store without objects. *)
Definition empty_store : MinIOHandler.client :=
  {| MinIOHandler.stat_object := fun _ => Raise S3Error;
     MinIOHandler.fget_object := fun _ _ => Ok tt;
     MinIOHandler.image_verify := fun _ => Ok tt;
     MinIOHandler.path_suffix := fun _ => u ".jpg";
     MinIOHandler.tmp_path := fun f => u "/tmp/clip-images/" ++ f |}.


(** A worker whose encoder returns [text_vec] and [image_vec] and whose
    channel accepts every call but, possibly, the publish. *)
Definition env (store : MinIOHandler.client) (text_vec image_vec : list R)
    (publish : res unit) : Worker.collaborators :=
  {| Worker.encode_text := fun _ => Ok text_vec;
     Worker.encode_image := fun _ => Ok image_vec;
     Worker.minio := store;
     Worker.basic_publish := fun _ => publish;
     Worker.basic_ack := Ok tt;
     Worker.basic_nack := fun _ => Ok tt;
     Worker.utcnow := u "2024-12-06T12:00:00";
     Worker.urlparse := no_urlparse;
     Worker.lower := same_case |}.

(** A worker without stored images, with a two-dimensional encoder. *)
Definition basic_env : Worker.collaborators :=
  env empty_store [1; 0]%R [0; 1]%R (Ok tt).


(** The same worker on a channel whose publish raises a transport error. *)
Definition failing_env : Worker.collaborators :=
  env empty_store [1; 0]%R [0; 1]%R (Raise AMQPError).


(** [{}] *)
Definition empty_raw : gmap string jval := ∅.

(** [{"item_id": "x1", "text": "lost wallet"}] *)
Definition text_raw : gmap string jval :=
  <["item_id" := JStr (u "x1")]> (<["text" := JStr (u "lost wallet")]> ∅).


(** [{"item_id": "x1"}] *)
Definition id_only_raw : gmap string jval :=
  <["item_id" := JStr (u "x1")]> ∅.




End Demo.

(** * Lemmas on strings *)

Section StringLemmas.

Variable p : N -> bool.

Lemma lstrip_starts s : starts_with p (lstrip p s) = false.
Proof.
  induction s as [|c t IH]; simpl; [done|].
  destruct (p c) eqn:Hc; [done|]. by simpl.
Qed.

Lemma lstrip_id s : starts_with p s = false -> lstrip p s = s.
Proof. destruct s as [|c t]; simpl; [done|]. by intros ->. Qed.

Lemma lstrip_snoc l c :
  lstrip p (l ++ [c]) =
  match lstrip p l with
  | [] => if p c then [] else [c]
  | x :: k => x :: k ++ [c]
  end.
Proof.
  induction l as [|x l IH]; simpl; [done|].
  destruct (p x); done.
Qed.

Lemma rstrip_cons c t :
  rstrip p (c :: t) =
  match rstrip p t with
  | [] => if p c then [] else [c]
  | x :: k => c :: x :: k
  end.
Proof.
  unfold rstrip. rewrite reverse_cons, lstrip_snoc.
  destruct (lstrip p (reverse t)) as [|x k] eqn:Hl.
  - rewrite reverse_nil. destruct (p c); done.
  - rewrite <- Hl.
    change (x :: k ++ [c]) with ((x :: k) ++ [c]). rewrite <- Hl.
    rewrite reverse_snoc.
    destruct (reverse (lstrip p (reverse t))) as [|y k'] eqn:Hr; [|done].
    apply (f_equal reverse) in Hr. rewrite reverse_involutive in Hr.
    rewrite Hr in Hl. done.
Qed.

Lemma rstrip_ends s : ends_with p (rstrip p s) = false.
Proof.
  unfold ends_with, rstrip. rewrite last_reverse.
  pose proof (lstrip_starts (reverse s)) as H.
  destruct (lstrip p (reverse s)); simpl in *; done.
Qed.

Lemma rstrip_starts s :
  starts_with p s = false -> starts_with p (rstrip p s) = false.
Proof.
  destruct s as [|c t]; [done|]. simpl. intros Hc.
  rewrite rstrip_cons. destruct (rstrip p t); simpl; rewrite ?Hc; done.
Qed.

Lemma strip_trimmed s : trimmed p (strip p s).
Proof.
  split; unfold strip.
  - apply rstrip_starts, lstrip_starts.
  - apply rstrip_ends.
Qed.

Lemma ends_with_cons c t :
  t <> [] -> ends_with p (c :: t) = ends_with p t.
Proof. intros Ht. unfold ends_with. destruct t; [done|]. by rewrite last_cons_cons. Qed.

(** *** [squeeze] *)

Variable r : N.
Hypothesis class_r : p r = true.

Lemma squeeze_starts s : starts_with p (squeeze p r s) = starts_with p s.
Proof.
  induction s as [|c t IH]; simpl; [done|].
  destruct (p c) eqn:Hc; simpl; [|done].
  destruct (starts_with p t) eqn:Ht; simpl; [|done].
  by rewrite IH.
Qed.

Lemma squeeze_nil_inv s : squeeze p r s = [] -> s = [].
Proof.
  induction s as [|c t IH]; simpl; [done|].
  destruct (p c); [|done].
  destruct (starts_with p t) eqn:Ht; [|done].
  intros H. apply IH in H. subst t. done.
Qed.

Lemma squeeze_ends s : ends_with p s = false -> ends_with p (squeeze p r s) = false.
Proof.
  induction s as [|c t IH]; [done|].
  destruct t as [|c' t'].
  - unfold ends_with. simpl. intros Hc. rewrite Hc. simpl. done.
  - rewrite ends_with_cons by done. intros Ht. specialize (IH Ht).
    assert (Hne : squeeze p r (c' :: t') <> []).
    { intros H. by apply squeeze_nil_inv in H. }
    cbn [squeeze]. cbn [squeeze] in IH, Hne.
    destruct (p c); [destruct (starts_with p (c' :: t'))|];
      rewrite ?ends_with_cons; done.
Qed.

Lemma squeeze_trimmed s : trimmed p s -> trimmed p (squeeze p r s).
Proof.
  intros [H1 H2]. split; [by rewrite squeeze_starts | by apply squeeze_ends].
Qed.

Lemma squeeze_single_spaced s : single_spaced p r (squeeze p r s) = true.
Proof.
  induction s as [|c t IH]; simpl; [done|].
  destruct (p c) eqn:Hc.
  - destruct (starts_with p t) eqn:Ht; [done|].
    simpl. rewrite class_r, N.eqb_refl, squeeze_starts, Ht, IH. done.
  - simpl. rewrite Hc, IH. done.
Qed.

Lemma squeeze_cons c t :
  squeeze p r (c :: t) =
  if p c
  then (if starts_with p t then squeeze p r t else r :: squeeze p r t)
  else c :: squeeze p r t.
Proof. done. Qed.

(** A run of class characters at the front becomes one [r]. *)
Lemma squeeze_class_cons c t :
  p c = true -> squeeze p r (c :: t) = r :: squeeze p r (lstrip p t).
Proof.
  revert c. induction t as [|x t IH]; intros c Hc.
  - simpl. rewrite Hc. done.
  - rewrite squeeze_cons, Hc. cbn [starts_with lstrip].
    destruct (p x) eqn:Hx; [by apply IH | done].
Qed.

Lemma words_from_cons cur c t :
  words_from p cur (c :: t) =
  if p c
  then match cur with
       | [] => words_from p [] t
       | _ :: _ => cur :: words_from p [] t
       end
  else words_from p (cur ++ [c]) t.
Proof. done. Qed.

Lemma words_from_nonempty cur s :
  s <> [] -> ends_with p s = false -> words_from p cur s <> [].
Proof.
  revert cur. induction s as [|c t IH]; intros cur Hne He; [done|].
  destruct t as [|c' t'].
  - unfold ends_with in He. simpl in He. simpl. rewrite He.
    destruct cur; done.
  - rewrite ends_with_cons in He by done.
    rewrite words_from_cons. destruct (p c).
    + destruct cur; [by apply IH | done].
    + by apply IH.
Qed.

Lemma join_cons sep x rest :
  rest <> [] -> join sep (x :: rest) = x ++ sep ++ join sep rest.
Proof. destruct rest; done. Qed.

Lemma join_words_squeeze s :
  ends_with p s = false ->
  join [r] (words_from p [] s) = squeeze p r (lstrip p s)
  /\ forall cur, cur <> [] -> join [r] (words_from p cur s) = cur ++ squeeze p r s.
Proof.
  induction s as [|c t IH]; intros He.
  - split; [done|]. intros [|x cur] Hc; [done|]. simpl. by rewrite app_nil_r.
  - assert (Ht : ends_with p t = false).
    { destruct t; [done|]. by rewrite ends_with_cons in He. }
    destruct (IH Ht) as [IH1 IH2].
    destruct (p c) eqn:Hc.
    + assert (Hne : t <> []).
      { intros ->. unfold ends_with in He. simpl in He. congruence. }
      split.
      * simpl. rewrite Hc. done.
      * intros cur Hcur. cbn [words_from]. rewrite Hc.
        destruct cur as [|x cur]; [done|].
        rewrite join_cons by (by apply words_from_nonempty).
        rewrite IH1, squeeze_class_cons by done. done.
    + split.
      * cbn [words_from lstrip]. rewrite Hc. simpl app.
        rewrite IH2 by done. cbn [squeeze]. rewrite Hc. done.
      * intros cur Hcur. cbn [words_from]. rewrite Hc.
        rewrite IH2 by (by destruct cur). cbn [squeeze]. rewrite Hc.
        by rewrite <- app_assoc.
Qed.

Lemma words_lstrip s : words_from p [] (lstrip p s) = words_from p [] s.
Proof.
  induction s as [|c t IH]; [done|].
  simpl. destruct (p c) eqn:Hc; [done|]. simpl. by rewrite Hc.
Qed.

Lemma words_from_all_class cur s :
  rstrip p s = [] ->
  words_from p cur s = match cur with [] => [] | _ :: _ => [cur] end.
Proof.
  revert cur. induction s as [|c t IH]; intros cur; [done|].
  rewrite rstrip_cons. destruct (rstrip p t) eqn:Hr; [|done].
  destruct (p c) eqn:Hc; [|done]. intros _.
  cbn [words_from]. rewrite Hc. rewrite (IH []) by done.
  destruct cur; done.
Qed.

Lemma words_rstrip cur s : words_from p cur (rstrip p s) = words_from p cur s.
Proof.
  revert cur. induction s as [|c t IH]; intros cur; [done|].
  rewrite rstrip_cons. destruct (rstrip p t) as [|x k] eqn:Hr.
  - destruct (p c) eqn:Hc.
    + cbn [words_from]. rewrite Hc.
      rewrite (words_from_all_class [] t) by done. destruct cur; done.
    + cbn [words_from]. rewrite Hc.
      rewrite (words_from_all_class (cur ++ [c]) t) by done. done.
  - cbn [words_from]. destruct (p c); rewrite <- ?IH; done.
Qed.

(** Stripping then squeezing is [r.join(s.split())]. *)
Lemma squeeze_strip_words s :
  squeeze p r (strip p s) = join [r] (words p s).
Proof.
  destruct (strip_trimmed s) as [H1 H2].
  destruct (join_words_squeeze (strip p s) H2) as [H _].
  rewrite lstrip_id in H by done. rewrite <- H.
  unfold words, strip. by rewrite words_rstrip, words_lstrip.
Qed.

End StringLemmas.

(** * Lemmas on the converter *)

Import MessageConverter.

Lemma lookup_setdefault (k k' : string) (v : pyval) (d : gmap string pyval) :
  setdefault k v d !! k' =
  if decide (k = k') then Some (default v (d !! k)) else d !! k'.
Proof.
  unfold setdefault. destruct (d !! k) eqn:Hk.
  - case_decide; subst; simpl; done.
  - rewrite lookup_insert. case_decide; done.
Qed.

Ltac map_lookup :=
  repeat first [rewrite lookup_setdefault | rewrite lookup_insert
               | rewrite lookup_delete];
  repeat (case_decide; try done).

Lemma normalize_text_shape v s :
  _normalize_text v = Ok s ->
  trimmed isspace s /\ single_spaced isspace SPACE s = true.
Proof.
  unfold _normalize_text. intros H.
  assert (Hc : s = [] \/ exists s0, s = squeeze isspace SPACE (strip isspace s0)).
  { destruct v; simpl in H.
    - left. congruence.
    - right. eexists. by inversion H.
    - right. destruct repr; simpl in H; [|done]. eexists. by inversion H. }
  destruct Hc as [-> | [s0 ->]]; [done|].
  split.
  - apply squeeze_trimmed; [done | apply strip_trimmed].
  - by apply squeeze_single_spaced.
Qed.

Section NormalizeLemmas.

Variable urlparse : pystr -> res parsed_url.
Variable lower : pystr -> pystr.

(** The lookups of the result of [normalize_fields]. *)
Lemma normalize_fields_lookup message image_key normalized :
  normalize_fields message image_key = Ok normalized ->
  normalized !! "image_key" = Some (PStr image_key)
  /\ normalized !! "image_url" = None
  /\ (exists s, _normalize_text (get message "text" (PStr [])) = Ok s
                /\ normalized !! "text" = Some (PStr s))
  /\ (exists s, _normalize_text (get message "description" (PStr [])) = Ok s
                /\ normalized !! "description" = Some (PStr s))
  /\ (exists s, _normalize_text (get message "category" (PStr [])) = Ok s
                /\ normalized !! "category" = Some (PStr s))
  /\ (exists s, _normalize_text (get message "location" (PStr [])) = Ok s
                /\ normalized !! "location" = Some (PStr s))
  /\ normalized !! "item_id" = Some (default (PStr []) (message !! "item_id"))
  /\ normalized !! "date_lost" = Some (default (PStr []) (message !! "date_lost"))
  /\ (if truthy (get message "contact_info" PNone)
      then normalized !! "contact_info" = message !! "contact_info"
      else exists parts,
          contact_parts (get message "contact_email" (PStr []))
                        (get message "contact_phone" (PStr [])) = Ok parts
          /\ normalized !! "contact_info" = Some (PStr (join (u ", ") parts))).
Proof.
  unfold normalize_fields.
  destruct (_normalize_text (get message "text" (PStr []))) as [t|] eqn:Ht; [|done].
  destruct (_normalize_text (get message "description" (PStr []))) as [d|] eqn:Hd; [|done].
  destruct (_normalize_text (get message "category" (PStr []))) as [c|] eqn:Hc; [|done].
  destruct (_normalize_text (get message "location" (PStr []))) as [l|] eqn:Hl; [|done].
  cbn [rbind].
  set (base := setdefault "date_lost" (PStr []) _).
  assert (Hci : get base "contact_info" PNone = get message "contact_info" PNone).
  { unfold get, base.
    by map_lookup. }
  assert (Hce : get base "contact_email" (PStr []) = get message "contact_email" (PStr [])).
  { unfold get, base.
    by map_lookup. }
  assert (Hcp : get base "contact_phone" (PStr []) = get message "contact_phone" (PStr [])).
  { unfold get, base.
    by map_lookup. }
  rewrite Hci, Hce, Hcp.
  destruct (truthy (get message "contact_info" PNone)) eqn:Htr; cbn [negb].
  - intros [= <-]. unfold base.
    repeat split; try (eexists; split; [done|]); map_lookup.
    unfold get in Htr. destruct (message !! "contact_info") eqn:E; done.
  - destruct (contact_parts _ _) as [parts|] eqn:Hp; [|done].
    cbn [rbind]. intros [= <-]. unfold base.
    repeat split; try (eexists; split; [done|]); map_lookup.
Qed.

Lemma normalize_body_fields message st normalized st' :
  normalize_body urlparse lower message st = (Ok normalized, st') ->
  exists image_key, normalize_fields message image_key = Ok normalized.
Proof.
  unfold normalize_body.
  destruct (_extract_image_key _ _ _ _) as [[k|e] st1]; [|done].
  intros [= H _]. eauto.
Qed.

End NormalizeLemmas.

Section JsonInput.

Variable urlparse : pystr -> res parsed_url.
Variable lower : pystr -> pystr.

(** [str()] never raises on a value that came out of [json.loads]. *)
Lemma py_str_of_json j : exists s, py_str (of_json j) = Ok s.
Proof. destruct j; simpl; eauto. Qed.

Lemma py_str_get_json (raw : gmap string jval) k dflt :
  (exists s, py_str dflt = Ok s) ->
  exists s, py_str (get (of_json <$> raw) k dflt) = Ok s.
Proof.
  intros Hd. unfold get. rewrite lookup_fmap.
  destruct (raw !! k); simpl; [apply py_str_of_json | done].
Qed.

Lemma normalize_text_json (raw : gmap string jval) k :
  exists s, _normalize_text (get (of_json <$> raw) k (PStr [])) = Ok s.
Proof.
  destruct (py_str_get_json raw k (PStr [])) as [s Hs]; [by eexists|].
  unfold _normalize_text. rewrite Hs.
  destruct (get _ _ _); simpl; eauto.
Qed.

Lemma extract_image_key_json (raw : gmap string jval) st :
  exists key st',
    _extract_image_key urlparse lower (of_json <$> raw) st = (Ok key, st').
Proof.
  assert (Hurl : exists key st',
             extract_from_url urlparse lower (of_json <$> raw) st = (Ok key, st')).
  { unfold extract_from_url, count_no_image.
    destruct (py_str_get_json raw "image_url" PNone) as [s ->]; [by eexists|].
    repeat case_match; eauto. }
  unfold _extract_image_key.
  destruct (py_str_get_json raw "image_key" PNone) as [s ->]; [by eexists|].
  repeat case_match; eauto.
Qed.

Lemma contact_parts_json (raw : gmap string jval) (m : gmap string pyval) :
  exists parts,
    contact_parts (get (of_json <$> raw) "contact_email" (PStr []))
                  (get (of_json <$> raw) "contact_phone" (PStr [])) = Ok parts.
Proof.
  unfold contact_parts.
  destruct (py_str_get_json raw "contact_email" (PStr [])) as [s1 ->]; [by eexists|].
  destruct (py_str_get_json raw "contact_phone" (PStr [])) as [s2 ->]; [by eexists|].
  repeat case_match; simpl; eauto.
Qed.

(** On a dictionary of JSON values the body of [normalize_message] raises
    nothing: the error path is not taken. *)
Lemma normalize_body_json (raw : gmap string jval) st :
  exists normalized st',
    normalize_body urlparse lower (of_json <$> raw) st = (Ok normalized, st').
Proof.
  unfold normalize_body.
  destruct (extract_image_key_json raw (bump_total st)) as (key & st' & ->).
  unfold normalize_fields.
  destruct (normalize_text_json raw "text") as [t ->].
  destruct (normalize_text_json raw "description") as [d ->].
  destruct (normalize_text_json raw "category") as [c ->].
  destruct (normalize_text_json raw "location") as [l ->].
  cbn [rbind].
  set (base := setdefault "date_lost" (PStr []) _).
  assert (Hce : get base "contact_email" (PStr [])
                = get (of_json <$> raw) "contact_email" (PStr [])).
  { unfold get, base. by map_lookup. }
  assert (Hcp : get base "contact_phone" (PStr [])
                = get (of_json <$> raw) "contact_phone" (PStr [])).
  { unfold get, base. by map_lookup. }
  rewrite Hce, Hcp.
  destruct (contact_parts_json raw base) as [parts ->].
  destruct (negb _); simpl; eauto.
Qed.

Lemma normalize_message_ok message st normalized st' :
  normalize_body urlparse lower message st = (Ok normalized, st') ->
  normalize_message urlparse lower message st = (normalized, st').
Proof. unfold normalize_message. by intros ->. Qed.

End JsonInput.

Lemma normalize_text_raw (raw : gmap string jval) k :
  _normalize_text (get (of_json <$> raw) k (PStr []))
  = Ok (join [SPACE] (words isspace (Claims.raw_text (raw !! k)))).
Proof.
  unfold get. rewrite lookup_fmap.
  destruct (raw !! k) as [[| s | b r]|]; simpl; try done;
    by rewrite (squeeze_strip_words isspace SPACE).
Qed.

(** * The tests of the repository, replayed on the embedding *)

Example test_normalize_object_key :
  _normalize_object_key (u "/items/test.jpg/") = u "items/test.jpg"
  /\ _normalize_object_key (u "items\test.jpg") = u "items/test.jpg"
  /\ _normalize_object_key (u "items//test///file.jpg") = u "items/test/file.jpg"
  /\ _normalize_object_key (u "items/a.jpg") = u "items/a.jpg".
Proof. repeat split. Qed.

Example test_normalize_text_fields :
  _normalize_text (PStr (u "  Lost   backpack  ")) = Ok (u "Lost backpack")
  /\ _normalize_text (PStr (u "Contains" ++ [LF; LF] ++ u "laptop"))
     = Ok (u "Contains laptop")
  /\ _normalize_text (PStr (u "  Bags  ")) = Ok (u "Bags")
  /\ _normalize_text PNone = Ok [].
Proof. repeat split. Qed.

Example test_is_valid_object_key :
  _is_valid_object_key (PStr (u "items/test.jpg")) = Ok true
  /\ _is_valid_object_key (PStr (u "folder/subfolder/file.png")) = Ok true
  /\ _is_valid_object_key (PStr []) = Ok false
  /\ _is_valid_object_key (PStr (u "key" ++ [NUL] ++ u "with")) = Ok false
  /\ _is_valid_object_key (PStr (u "key" ++ [LF] ++ u "with")) = Ok false
  /\ _is_valid_object_key (PStr (replicate 2000 97%N)) = Ok false.
Proof. repeat split; vm_compute; reflexivity. Qed.

Example test_validate_message :
  validate_message Demo.valid_message = Ok (true, None)
  /\ validate_message (<["text" := PStr (u "Lost item")]> ∅)
     = Ok (false, Some MISSING_ITEM_ID)
  /\ validate_message (<["item_id" := PStr (u "test333")]> ∅)
     = Ok (false, Some NO_TEXT_FIELD).
Proof. repeat split; vm_compute; reflexivity. Qed.

(** [image_key] has priority over [image_url]. *)
Example test_priority_image_key_over_url :
  (normalize_message Demo.no_urlparse Demo.same_case
     (<["item_id" := PStr (u "test666")]>
        (<["text" := PStr (u "Lost item")]>
           (<["image_key" := PStr (u "items/priority.jpg")]>
              (<["image_url" := PStr (u "https://example.com/fallback.jpg")]> ∅))))
     initial_stats).1 !! "image_key"
  = Some (PStr (u "items/priority.jpg")).
Proof. vm_compute. reflexivity. Qed.

Example test_normalize_message_no_image :
  no_image (normalize_message Demo.no_urlparse Demo.same_case
              (of_json <$> Demo.text_raw) initial_stats).2 = 1%nat.
Proof. vm_compute. reflexivity. Qed.

(** * The claims on the converter *)

Import Claims.

(** C4, on the code: [_normalize_object_key] is not idempotent.  On the key
    [\a] (a backslash, then [a]) the slashes are stripped before the
    backslash is replaced: the result [/a] keeps a leading slash, and a
    second pass turns it into [a]. *)
Theorem C4_normalize_object_key_not_idempotent :
  _normalize_object_key (u "\a") = u "/a"
  /\ _normalize_object_key (_normalize_object_key (u "\a")) = u "a"
  /\ _normalize_object_key (_normalize_object_key (u "\a"))
     <> _normalize_object_key (u "\a").
Proof. repeat split. discriminate. Qed.

Lemma utf8_len_scalar s :
  forallb (fun c => negb ((55296 <=? c) && (c <=? 57343))%N) s = true ->
  exists n, utf8_len s = Ok n.
Proof.
  induction s as [|c t IH]; simpl; [eauto|].
  intros [Hc Ht]%andb_prop. destruct (IH Ht) as [n ->].
  unfold utf8_width. apply negb_true_iff in Hc. rewrite Hc.
  repeat case_match; simpl; eauto.
Qed.

(** C5, amended: [validate_message] rejects exactly the messages with a
    falsy item id, with text, description and category all falsy, or with
    a truthy image key that is not a string, contains one of backslash,
    NUL, newline, carriage return, tab, or is longer than 1024 bytes in
    UTF-8; the reason is [None] exactly on success.  It returns whenever
    the image key has no surrogate code point. *)
Theorem C5_validate_message_conditions (message : gmap string pyval) :
  (forall ok reason,
      validate_message message = Ok (ok, reason) ->
      ok = negb (rejected invalid_chars message)
      /\ (ok = true <-> reason = None))
  /\ (scalar_key (get message "image_key" (PStr [])) = true ->
      exists ok reason, validate_message message = Ok (ok, reason)).
Proof.
  unfold validate_message, rejected, _is_valid_object_key, has_invalid_char,
    too_long.
  destruct (truthy (get message "item_id" PNone)); cbn [negb orb];
    [|split; [by intros ? ? [= <- <-] | eauto]].
  destruct (truthy (get message "text" PNone) || truthy (get message "description" PNone)
            || truthy (get message "category" PNone)); cbn [negb orb];
    [|split; [by intros ? ? [= <- <-] | eauto]].
  destruct (get message "image_key" (PStr [])) as [|[|c k]|b r]; cbn [truthy andb];
    try (split; [by intros ? ? [= <- <-] | eauto]).
  - destruct (existsb _ invalid_chars) eqn:Hinv; cbn [rbind orb].
    + split; [by intros ? ? [= <- <-] | eauto].
    + split.
      * destruct (utf8_len (c :: k)) as [n|e]; cbn [rbind]; [|done].
        destruct (1024 <? n)%nat; cbn [negb]; by intros ? ? [= <- <-].
      * intros Hs. destruct (utf8_len_scalar _ Hs) as [n ->]. cbn [rbind].
        destruct (1024 <? n)%nat; cbn [negb]; eauto.
  - destruct b; cbn [rbind py_str scalar_key].
    + split.
      * destruct r; cbn [rbind]; [by intros ? ? [= <- <-] | done].
      * destruct r; [eauto | done].
    + split; [by intros ? ? [= <- <-] | eauto].
Qed.

Lemma C5_witness :
  (true = negb (rejected invalid_chars Demo.valid_message)
   /\ (true = true <-> @None pystr = None))
  /\ exists ok reason, validate_message Demo.valid_message = Ok (ok, reason).
Proof.
  destruct (C5_validate_message_conditions Demo.valid_message) as [H1 H2].
  split.
  - apply (H1 true None). vm_compute. reflexivity.
  - apply H2. vm_compute. reflexivity.
Defined.

(** C5 as stated fails: a key with a backslash meets none of the listed
    conditions and is rejected. *)
Lemma C5_counterexample :
  rejected spec_forbidden Demo.backslash_message = false
  /\ validate_message Demo.backslash_message
     = Ok (false, Some (u "Invalid image_key format: a\b")).
Proof. split; vm_compute; reflexivity. Qed.

(** C6, amended: on every raw message the fields text, description,
    category and location of the normalized message are the words of the
    raw value ([''] for a missing field or [null]) joined by single
    spaces, hence trimmed and single-spaced; [date_lost] is the raw value
    as it came, [''] when the field is missing; [contact_info] is the raw
    value when that is truthy and the e-mail and phone joined by [', ']
    otherwise. *)
Theorem C6_text_fields_normalized E (raw : gmap string jval) st :
  text_field_ok raw (normalized E raw st) "text"
  /\ text_field_ok raw (normalized E raw st) "description"
  /\ text_field_ok raw (normalized E raw st) "category"
  /\ text_field_ok raw (normalized E raw st) "location"
  /\ normalized E raw st !! "date_lost"
     = Some (default (PStr []) (of_json <$> raw !! "date_lost"))
  /\ (if truthy (get (of_json <$> raw) "contact_info" PNone)
      then normalized E raw st !! "contact_info"
           = of_json <$> raw !! "contact_info"
      else exists parts,
          contact_parts (get (of_json <$> raw) "contact_email" (PStr []))
                        (get (of_json <$> raw) "contact_phone" (PStr [])) = Ok parts
          /\ normalized E raw st !! "contact_info"
             = Some (PStr (join (u ", ") parts))).
Proof.
  unfold normalized.
  destruct (normalize_body_json (Worker.urlparse E) (Worker.lower E) raw st)
    as (n & st' & Hb).
  rewrite (normalize_message_ok _ _ _ _ _ _ Hb). cbn [fst].
  destruct (normalize_body_fields _ _ _ _ _ _ Hb) as [key Hf].
  destruct (normalize_fields_lookup _ _ _ Hf)
    as (_ & _ & (t & Ht & Hlt) & (d & Hd & Hld) & (c & Hc & Hlc)
        & (l & Hl & Hll) & _ & Hdate & Hcontact).
  rewrite normalize_text_raw in Ht, Hd, Hc, Hl.
  assert (Hshape : forall k,
             trimmed isspace (join [SPACE] (words isspace (raw_text (raw !! k))))
             /\ single_spaced isspace SPACE
                  (join [SPACE] (words isspace (raw_text (raw !! k)))) = true).
  { intros k. apply (normalize_text_shape (get (of_json <$> raw) k (PStr []))).
    apply normalize_text_raw. }
  unfold text_field_ok.
  injection Ht as <-. injection Hd as <-. injection Hc as <-. injection Hl as <-.
  rewrite lookup_fmap in Hdate.
  repeat split; try done; try apply Hshape.
  destruct (truthy _); [by rewrite Hcontact, lookup_fmap | done].
Qed.

(** C6 as stated fails: [date_lost] is copied as it came, with its leading
    blank. *)
Lemma C6_counterexample :
  normalized Demo.basic_env Demo.date_message initial_stats !! "date_lost"
  = Some (PStr (u " x"))
  /\ ~ clean_string
         (normalized Demo.basic_env Demo.date_message initial_stats !! "date_lost").
Proof.
  assert (H : normalized Demo.basic_env Demo.date_message initial_stats
              !! "date_lost" = Some (PStr (u " x"))) by (vm_compute; reflexivity).
  rewrite H. split; [done|].
  intros (s & [= <-] & [Hs _] & _). vm_compute in Hs. discriminate.
Qed.

(** C10: whenever the body of [normalize_message] raises nothing, the
    message returned maps [image_key] to a string and has no [image_url]. *)
Theorem C10_image_key_resolved urlparse lower
    (message : gmap string pyval) st normalized st' :
  normalize_body urlparse lower message st = (Ok normalized, st') ->
  normalize_message urlparse lower message st = (normalized, st')
  /\ (exists key : pystr, normalized !! "image_key" = Some (PStr key))
  /\ normalized !! "image_url" = None.
Proof.
  intros Hb. split; [by apply normalize_message_ok|].
  destruct (normalize_body_fields _ _ _ _ _ _ Hb) as [key Hf].
  destruct (normalize_fields_lookup _ _ _ Hf) as (Hk & Hu & _).
  eauto.
Qed.

Lemma C10_witness :
  exists normalized st',
    normalize_message Demo.no_urlparse Demo.same_case Demo.legacy_message
      initial_stats = (normalized, st')
    /\ (exists key : pystr, normalized !! "image_key" = Some (PStr key))
    /\ normalized !! "image_url" = None.
Proof.
  eexists _, _.
  apply (C10_image_key_resolved Demo.no_urlparse Demo.same_case
           Demo.legacy_message initial_stats).
  vm_compute. reflexivity.
Defined.

(** * Keys on which [_normalize_object_key] is idempotent *)

Section CleanKeys.

Variable p : N -> bool.

Lemma rstrip_id s : ends_with p s = false -> rstrip p s = s.
Proof.
  induction s as [|c t IH]; [done|].
  rewrite rstrip_cons. destruct t as [|c' t'].
  - unfold ends_with. simpl. by intros ->.
  - rewrite ends_with_cons by done. intros H. by rewrite IH.
Qed.

Lemma strip_id s : trimmed p s -> strip p s = s.
Proof.
  intros [H1 H2]. unfold strip. rewrite lstrip_id by done. by apply rstrip_id.
Qed.

Lemma squeeze_id r s : single_spaced p r s = true -> squeeze p r s = s.
Proof.
  induction s as [|c t IH]; [done|].
  cbn [single_spaced squeeze]. intros [Hc Ht]%andb_prop.
  destruct (p c).
  - apply andb_prop in Hc as [Hr Hs]. apply N.eqb_eq in Hr. subst c.
    apply negb_true_iff in Hs. rewrite Hs. by rewrite IH.
  - by rewrite IH.
Qed.

Lemma Forall_lstrip (Q : N -> Prop) s : Forall Q s -> Forall Q (lstrip p s).
Proof.
  induction 1 as [|c t Hc Ht IH]; simpl; [done|].
  destruct (p c); [done | by constructor].
Qed.

Lemma Forall_strip (Q : N -> Prop) s : Forall Q s -> Forall Q (strip p s).
Proof.
  intros H. unfold strip, rstrip.
  apply Forall_reverse, Forall_lstrip, Forall_reverse, Forall_lstrip, H.
Qed.

Lemma Forall_squeeze (Q : N -> Prop) r s :
  Q r -> Forall Q s -> Forall Q (squeeze p r s).
Proof.
  intros Hr. induction 1 as [|c t Hc Ht IH]; simpl; [done|].
  destruct (p c); [destruct (starts_with p t)|]; try done; by constructor.
Qed.

Lemma Forall_trimmed s : Forall (fun c => p c = false) s -> trimmed p s.
Proof.
  intros H. split.
  - destruct H; done.
  - unfold ends_with. destruct (last s) as [c|] eqn:Hl; [|done].
    apply last_Some_elem_of in Hl. rewrite Forall_forall in H. by apply H.
Qed.

End CleanKeys.

Lemma replace_id old new s :
  Forall (fun c => c <> old) s -> replace old new s = s.
Proof.
  unfold replace. induction 1 as [|c t Hc Ht IH]; [done|].
  cbn [fmap list_fmap]. apply N.eqb_neq in Hc. rewrite Hc. f_equal. apply IH.
Qed.

(** On a key without blanks and without backslashes a second pass of
    [_normalize_object_key] changes nothing. *)
Lemma normalize_object_key_idempotent_clean key :
  Forall (fun c => isspace c = false) key ->
  Forall (fun c => c <> BACKSLASH) key ->
  _normalize_object_key (_normalize_object_key key) = _normalize_object_key key.
Proof.
  intros Hws Hbs.
  set (o := squeeze is_slash SLASH (strip is_slash key)).
  assert (Hn : _normalize_object_key key = o).
  { unfold _normalize_object_key.
    rewrite (strip_id isspace key) by (by apply Forall_trimmed).
    by rewrite replace_id by (by apply Forall_strip). }
  rewrite Hn.
  assert (Ho_ws : Forall (fun c => isspace c = false) o).
  { apply Forall_squeeze; [done | by apply Forall_strip]. }
  assert (Ho_bs : Forall (fun c => c <> BACKSLASH) o).
  { apply Forall_squeeze; [done | by apply Forall_strip]. }
  assert (Ho_tr : trimmed is_slash o).
  { apply squeeze_trimmed; [done | apply strip_trimmed]. }
  assert (Ho_ss : single_spaced is_slash SLASH o = true).
  { by apply squeeze_single_spaced. }
  unfold _normalize_object_key.
  rewrite (strip_id isspace o) by (by apply Forall_trimmed).
  rewrite (strip_id is_slash o) by done.
  rewrite replace_id by done.
  by apply squeeze_id.
Qed.

(** * Lemmas on arrays *)

Section ArrayLemmas.

#[local] Open Scope R_scope.

Lemma fdiv_nonzero x n : n <> 0 -> Np.fdiv x n = Np.Fin (x / n).
Proof. intros Hn. unfold Np.fdiv. destruct (Req_dec_T n 0); done. Qed.

Lemma fdiv_zero_zero : Np.fdiv 0 0 = Np.NaN.
Proof.
  unfold Np.fdiv. destruct (Req_dec_T 0 0) as [_|H]; [|done]. done.
Qed.

Lemma div_scalar_nonzero v n :
  n <> 0 -> Np.div_scalar v n = Np.tolist ((fun x => x / n) <$> v).
Proof.
  intros Hn. unfold Np.div_scalar, Np.tolist.
  induction v as [|x v IH]; [done|].
  cbn [fmap list_fmap]. rewrite fdiv_nonzero by done. f_equal. apply IH.
Qed.

Lemma length_div_scalar v n : length (Np.div_scalar v n) = length v.
Proof. unfold Np.div_scalar. by rewrite length_fmap. Qed.

Lemma sumsq_nonneg v : 0 <= Np.sumsq v.
Proof.
  induction v as [|x v IH]; simpl; [lra|].
  pose proof (Rle_0_sqr x) as H. unfold Rsqr in H. lra.
Qed.

Lemma sumsq_div v n :
  n <> 0 -> Np.sumsq ((fun x => x / n) <$> v) = Np.sumsq v / (n * n).
Proof.
  intros Hn. unfold Np.sumsq. induction v as [|x v IH].
  - simpl. field. done.
  - cbn [fmap list_fmap foldr]. rewrite IH. field. done.
Qed.

Lemma norm_nonzero v : 0 < Np.sumsq v -> Np.norm v <> 0.
Proof.
  intros H. unfold Np.norm. pose proof (sqrt_lt_R0 _ H). lra.
Qed.

(** Dividing an array by its own non-zero norm gives a unit array. *)
Lemma norm_div_self v :
  Np.norm v <> 0 -> Np.norm ((fun x => x / Np.norm v) <$> v) = 1.
Proof.
  intros Hn. unfold Np.norm at 1. rewrite sumsq_div by done.
  unfold Np.norm. rewrite sqrt_sqrt by apply sumsq_nonneg.
  assert (Hs : Np.sumsq v <> 0).
  { intros H. apply Hn. unfold Np.norm. rewrite H. apply sqrt_0. }
  replace (Np.sumsq v / Np.sumsq v) with 1 by (field; done).
  apply sqrt_1.
Qed.

Lemma unit_norm_div_self v :
  Np.norm v <> 0 -> Np.unit_norm (Np.div_scalar v (Np.norm v)).
Proof.
  intros Hn. exists ((fun x => x / Np.norm v) <$> v). split.
  - by apply div_scalar_nonzero.
  - by apply norm_div_self.
Qed.

Lemma add_same_length a b :
  length a = length b -> Np.add a b = Ok (zip_with Rplus a b).
Proof. intros H. unfold Np.add. by rewrite decide_True. Qed.

Lemma zip_scale w1 w2 a b :
  zip_with Rplus (Np.scale w1 a) (Np.scale w2 b)
  = zip_with (fun x y => w1 * x + w2 * y) a b.
Proof.
  unfold Np.scale. revert b.
  induction a as [|x a IH]; intros [|y b]; simpl; try done.
  by rewrite IH.
Qed.

Lemma zip_left a b :
  length a = length b -> zip_with (fun x y => 1 * x + (1 - 1) * y) a b = a.
Proof.
  revert b. induction a as [|x a IH]; intros [|y b]; simpl; try done.
  intros [= H]. rewrite IH by done. f_equal. lra.
Qed.

Lemma zip_right a b :
  length a = length b -> zip_with (fun x y => 0 * x + (1 - 0) * y) a b = b.
Proof.
  revert b. induction a as [|x a IH]; intros [|y b]; simpl; try done.
  intros [= H]. rewrite IH by done. f_equal. lra.
Qed.

Lemma div_by_one v : Np.div_scalar v 1 = Np.tolist v.
Proof.
  rewrite div_scalar_nonzero by lra. unfold Np.tolist. f_equal.
  induction v as [|x v IH]; [done|].
  cbn [fmap list_fmap]. f_equal; [field | apply IH].
Qed.

(** On arrays of one length and a weight in the unit interval
    [combine_embeddings] returns the weighted combination divided by its
    norm. *)
Lemma combine_embeddings_weighted a b w :
  length a = length b -> 0 <= w <= 1 ->
  CLIPHandler.combine_embeddings a b w = Ok (CLIPHandler.weighted_unit w a b).
Proof.
  intros Hl [H0 H1]. unfold CLIPHandler.combine_embeddings.
  destruct (Rle_dec 0 w); [|done]. destruct (Rle_dec w 1); [|done].
  rewrite add_same_length by (unfold Np.scale; by rewrite !length_fmap).
  cbn [rbind]. by rewrite zip_scale.
Qed.

Lemma combine_embeddings_outside a b w :
  w < 0 \/ 1 < w -> CLIPHandler.combine_embeddings a b w = Raise ValueError.
Proof.
  intros H. unfold CLIPHandler.combine_embeddings.
  destruct (Rle_dec 0 w); [|done]. destruct (Rle_dec w 1); [|done]. lra.
Qed.

Lemma length_weighted_unit w a b :
  length a = length b -> length (CLIPHandler.weighted_unit w a b) = length a.
Proof.
  intros H. unfold CLIPHandler.weighted_unit.
  rewrite length_div_scalar, length_zip_with. lia.
Qed.

Lemma norm_unit_basis_1 : Np.norm [1; 0] = 1.
Proof.
  unfold Np.norm, Np.sumsq. simpl.
  replace (1 * 1 + (0 * 0 + 0)) with 1 by lra. apply sqrt_1.
Qed.

Lemma norm_unit_basis_2 : Np.norm [0; 1] = 1.
Proof.
  unfold Np.norm, Np.sumsq. simpl.
  replace (0 * 0 + (1 * 1 + 0)) with 1 by lra. apply sqrt_1.
Qed.

Lemma norm_unit_basis_neg : Np.norm [-1; 0] = 1.
Proof.
  unfold Np.norm, Np.sumsq. simpl.
  replace (-1 * -1 + (0 * 0 + 0)) with 1 by lra. apply sqrt_1.
Qed.

End ArrayLemmas.

(** * The claim on [combine_embeddings] *)

Section CombineClaim.

#[local] Open Scope R_scope.

(** C7, amended: for unit arrays [a] and [b] of one dimension [D] and a
    weight [w] in the unit interval, [combine_embeddings] returns the
    weighted combination divided by its norm, of length [D], and of unit
    norm whenever the weighted combination is not the zero array; at
    [w = 1] the result is [a], at [w = 0] it is [b]; a weight outside the
    unit interval raises [ValueError]. *)
Theorem C7_combine_embeddings (a b : list R) (w : R) (D : nat) :
  length a = D -> length b = D -> Np.norm a = 1 -> Np.norm b = 1 ->
  (0 <= w <= 1 ->
   CLIPHandler.combine_embeddings a b w = Ok (CLIPHandler.weighted_unit w a b)
   /\ length (CLIPHandler.weighted_unit w a b) = D
   /\ (Np.norm (zip_with (fun x y => w * x + (1 - w) * y) a b) <> 0 ->
       Np.unit_norm (CLIPHandler.weighted_unit w a b)))
  /\ CLIPHandler.combine_embeddings a b 1 = Ok (Np.tolist a)
  /\ CLIPHandler.combine_embeddings a b 0 = Ok (Np.tolist b)
  /\ (w < 0 \/ 1 < w -> CLIPHandler.combine_embeddings a b w = Raise ValueError).
Proof.
  intros Ha Hb Hna Hnb.
  assert (Hl : length a = length b) by congruence.
  repeat split.
  - by apply combine_embeddings_weighted.
  - rewrite length_weighted_unit; done.
  - intros Hn. by apply unit_norm_div_self.
  - rewrite combine_embeddings_weighted by (done || lra).
    unfold CLIPHandler.weighted_unit. rewrite zip_left by done.
    rewrite Hna. by rewrite div_by_one.
  - rewrite combine_embeddings_weighted by (done || lra).
    unfold CLIPHandler.weighted_unit. rewrite zip_right by done.
    rewrite Hnb. by rewrite div_by_one.
  - apply combine_embeddings_outside.
Qed.

Lemma C7_witness :
  (CLIPHandler.combine_embeddings [1; 0] [0; 1] (1 / 2)
   = Ok (CLIPHandler.weighted_unit (1 / 2) [1; 0] [0; 1])
   /\ length (CLIPHandler.weighted_unit (1 / 2) [1; 0] [0; 1]) = 2%nat
   /\ Np.unit_norm (CLIPHandler.weighted_unit (1 / 2) [1; 0] [0; 1]))
  /\ CLIPHandler.combine_embeddings [1; 0] [0; 1] 1 = Ok (Np.tolist [1; 0])
  /\ CLIPHandler.combine_embeddings [1; 0] [0; 1] 0 = Ok (Np.tolist [0; 1])
  /\ CLIPHandler.combine_embeddings [1; 0] [0; 1] 2 = Raise ValueError.
Proof.
  destruct (C7_combine_embeddings [1; 0] [0; 1] 2 2 eq_refl eq_refl
              norm_unit_basis_1 norm_unit_basis_2) as (_ & H1 & H0 & Hout).
  destruct (C7_combine_embeddings [1; 0] [0; 1] (1 / 2) 2 eq_refl eq_refl
              norm_unit_basis_1 norm_unit_basis_2) as (Hin & _).
  destruct Hin as (Hc & Hlen & Hunit); [lra|].
  repeat split; try done.
  - apply Hunit. apply norm_nonzero. unfold Np.sumsq. simpl. lra.
  - apply Hout. lra.
Defined.

(** C7 as stated fails: for the opposite unit arrays [[1; 0]] and
    [[-1; 0]] and the weight one half the weighted combination is the zero
    array, its norm is zero, and the result is an array of [nan]. *)
Lemma C7_counterexample :
  length [1; 0] = 2%nat /\ length [-1; 0] = 2%nat
  /\ Np.norm [1; 0] = 1 /\ Np.norm [-1; 0] = 1
  /\ 0 <= 1 / 2 <= 1
  /\ CLIPHandler.combine_embeddings [1; 0] [-1; 0] (1 / 2) = Ok [Np.NaN; Np.NaN]
  /\ ~ Np.unit_norm [Np.NaN; Np.NaN].
Proof.
  repeat split; try done; try lra.
  - apply norm_unit_basis_1.
  - apply norm_unit_basis_neg.
  - rewrite combine_embeddings_weighted by (done || lra).
    unfold CLIPHandler.weighted_unit. simpl zip_with.
    replace (1 / 2 * 1 + (1 - 1 / 2) * -1) with 0 by lra.
    replace (1 / 2 * 0 + (1 - 1 / 2) * 0) with 0 by lra.
    assert (Hn : Np.norm [0; 0] = 0).
    { unfold Np.norm, Np.sumsq. simpl.
      replace (0 * 0 + (0 * 0 + 0)) with 0 by lra. apply sqrt_0. }
    rewrite Hn. unfold Np.div_scalar. simpl. by rewrite fdiv_zero_zero.
  - intros (v & Hv & _). destruct v as [|x v]; simpl in Hv; discriminate.
Qed.

End CombineClaim.

(** * Lemmas on the workers *)

Import Worker.

Lemma calls_on_exception E issued e :
  calls (on_exception E issued e)
  = issued ++ [NackCall (negb (is_json_decode_error e))].
Proof. done. Qed.

Lemma ack_and_finish_ok E issued :
  basic_ack E = Ok tt ->
  ack_and_finish E issued = {| calls := issued ++ [AckCall]; escaped := None |}.
Proof. unfold ack_and_finish. by intros ->. Qed.

Lemma calls_ack_and_finish E issued :
  exists rest, calls (ack_and_finish E issued) = issued ++ AckCall :: rest
               /\ (rest = [] \/ exists b, rest = [NackCall b]).
Proof.
  unfold ack_and_finish, finish. destruct (basic_ack E) as [[]|e].
  - exists []. split; [done | by left].
  - eexists [_]. split.
    + rewrite calls_on_exception, <- app_assoc. done.
    + right. eauto.
Qed.





Lemma main_process_object E (raw : gmap string jval) st :
  Main.process_message E (JsonObject raw) st
  = (Main.handle_normalized E (normalized E raw st),
     (normalize_message (urlparse E) (lower E) (of_json <$> raw) st).2).
Proof.
  unfold Main.process_message, normalized.
  by destruct (normalize_message _ _ _ _).
Qed.

(** The run of main.py ends in one of three ways: in the handlers before
    any call, in the ack of a message that failed validation, or in the
    publish of a record. *)
Lemma main_outcome_shape E body st :
  (exists e, (Main.process_message E body st).1 = on_exception E [] e)
  \/ ((Main.process_message E body st).1 = ack_and_finish E []
      /\ exists raw reason,
          body = JsonObject raw
          /\ validate_message (normalized E raw st) = Ok (false, reason))
  \/ (exists r, (Main.process_message E body st).1 = publish_and_ack E r).
Proof.
  destruct body as [| | |raw]; try (left; by eexists).
  rewrite main_process_object. cbn [fst].
  unfold Main.handle_normalized, Main.embed_and_publish.
  destruct (validate_message (normalized E raw st)) as [[[] reason]|e] eqn:Hv;
    [| right; left; eauto | left; eauto].
  destruct (Main.text_stage E _) as [t|e]; [|left; eauto].
  destruct (Main.fuse t _) as [final|e]; [|left; eauto].
  right. right. eauto.
Qed.

(** * The claims on the worker of main.py *)

Lemma validate_missing_item_id (message : gmap string pyval) :
  truthy (get message "item_id" PNone) = false ->
  validate_message message = Ok (false, Some MISSING_ITEM_ID).
Proof. intros H. unfold validate_message. by rewrite H. Qed.

Lemma main_validation_failure E (raw : gmap string jval) st reason :
  validate_message (normalized E raw st) = Ok (false, reason) ->
  main_run E raw st = ack_and_finish E [].
Proof.
  intros Hv. unfold main_run. rewrite main_process_object. cbn [fst].
  unfold Main.handle_normalized. by rewrite Hv.
Qed.


Lemma no_publish_in_ack E r :
  ~ In (PublishCall r) (calls (ack_and_finish E [])).
Proof.
  destruct (calls_ack_and_finish E []) as (rest & -> & Hrest). cbn [app].
  intros [H|H]; [done|]. destruct Hrest as [-> | [b ->]]; [done|].
  destruct H as [H|H]; done.
Qed.

(** C2, amended: when the normalized message has an empty item id,
    validation fails with the reason "Missing required field: item_id",
    and the worker acknowledges the message: the first call on the channel
    is the ack and no record is published; when the ack goes through it is
    the only call, so the message is neither rejected nor requeued. *)
Theorem C2_missing_item_id_acked E (raw : gmap string jval) st :
  truthy (get (normalized E raw st) "item_id" PNone) = false ->
  validate_message (normalized E raw st) = Ok (false, Some MISSING_ITEM_ID)
  /\ contains (u "item_id") MISSING_ITEM_ID = true
  /\ main_run E raw st = ack_and_finish E []
  /\ (exists rest, calls (main_run E raw st) = AckCall :: rest)
  /\ (forall r, ~ In (PublishCall r) (calls (main_run E raw st)))
  /\ (basic_ack E = Ok tt ->
      main_run E raw st = {| calls := [AckCall]; escaped := None |}).
Proof.
  intros Hid.
  pose proof (validate_missing_item_id _ Hid) as Hv.
  rewrite (main_validation_failure E raw st _ Hv).
  split; [done|]. split; [done|]. split; [done|].
  split; [|split].
  - destruct (calls_ack_and_finish E []) as (rest & -> & _). eauto.
  - apply no_publish_in_ack.
  - intros Ha. by rewrite ack_and_finish_ok.
Qed.

Lemma C2_witness :
  main_run Demo.basic_env Demo.empty_raw initial_stats
  = {| calls := [AckCall]; escaped := None |}.
Proof.
  apply (C2_missing_item_id_acked Demo.basic_env Demo.empty_raw initial_stats).
  - vm_compute. reflexivity.
  - reflexivity.
Defined.

(** C2 as stated fails: the empty object has no item id, and the worker
    acks it; the only call on the channel is the ack, not a rejection
    without requeue. *)
Lemma C2_counterexample :
  truthy (get (normalized Demo.basic_env Demo.empty_raw initial_stats)
            "item_id" PNone) = false
  /\ calls (main_run Demo.basic_env Demo.empty_raw initial_stats) = [AckCall]
  /\ ~ In (NackCall false)
         (calls (main_run Demo.basic_env Demo.empty_raw initial_stats)).
Proof.
  assert (H : calls (main_run Demo.basic_env Demo.empty_raw initial_stats)
              = [AckCall]) by (vm_compute; reflexivity).
  rewrite H.
  split; [vm_compute; reflexivity|]. split; [reflexivity|].
  intros [Hn|Hn]; [discriminate | done].
Qed.



(** C9, amended: in every run of main.py in which the publish step is
    reached and raises an exception other than a JSON decoding error, a
    transport error in particular, the calls on the channel are the
    publish followed by a nack with requeue, and no ack.  An ack is issued
    in two kinds of runs only: after a publish that succeeded, and,
    without any record, as the first call for a message that failed
    validation. *)
Theorem C9_publish_failure_requeues E body st :
  (forall r e,
      In (PublishCall r) (calls (Main.process_message E body st).1) ->
      basic_publish E r = Raise e ->
      is_json_decode_error e = false ->
      calls (Main.process_message E body st).1 = [PublishCall r; NackCall true]
      /\ ~ In AckCall (calls (Main.process_message E body st).1))
  /\ (In AckCall (calls (Main.process_message E body st).1) ->
      (exists r rest,
          calls (Main.process_message E body st).1
          = PublishCall r :: AckCall :: rest
          /\ basic_publish E r = Ok tt)
      \/ (exists raw reason rest,
             body = JsonObject raw
             /\ validate_message (normalized E raw st) = Ok (false, reason)
             /\ calls (Main.process_message E body st).1 = AckCall :: rest
             /\ forall r, ~ In (PublishCall r)
                            (calls (Main.process_message E body st).1))).
Proof.
  destruct (main_outcome_shape E body st)
    as [[e0 He] | [[He (raw & reason & Hb & Hv)] | [r0 He]]]; rewrite He.
  - split; [intros r e [H|H]; done | intros [H|H]; done].
  - split.
    + intros r e Hin. by apply no_publish_in_ack in Hin.
    + intros _. right. exists raw, reason.
      destruct (calls_ack_and_finish E []) as (rest & Hc & _).
      exists rest. split; [done|]. split; [done|]. split; [done|].
      apply no_publish_in_ack.
  - unfold publish_and_ack.
    destruct (basic_publish E r0) as [[]|e0] eqn:Hp.
    + destruct (calls_ack_and_finish E [PublishCall r0]) as (rest & -> & Hrest).
      cbn [app]. split.
      * intros r e Hin Hr.
        assert (r = r0) as ->.
        { destruct Hin as [H|[H|H]]; [congruence | done |].
          destruct Hrest as [-> | [b ->]]; [done|]. destruct H as [H|H]; done. }
        congruence.
      * intros _. left. eauto.
    + rewrite calls_on_exception. cbn [app]. split.
      * intros r e Hin Hr Hj.
        assert (r = r0) as -> by (destruct Hin as [H|[H|H]]; [congruence | done | done]).
        rewrite Hp in Hr. injection Hr as ->. rewrite Hj. cbn [negb].
        split; [done|]. intros [H|[H|H]]; done.
      * intros [H|[H|H]]; done.
Qed.

Lemma C9_witness :
  calls (Main.process_message Demo.failing_env (JsonObject Demo.text_raw)
           initial_stats).1
  = [PublishCall
       (create_output_message
          (normalized Demo.failing_env Demo.text_raw initial_stats)
          (Np.tolist [1; 0]%R) false (utcnow Demo.failing_env));
     NackCall true]
  /\ ~ In AckCall
       (calls (Main.process_message Demo.failing_env (JsonObject Demo.text_raw)
                 initial_stats).1).
Proof.
  destruct (C9_publish_failure_requeues Demo.failing_env
              (JsonObject Demo.text_raw) initial_stats) as [H _].
  apply (H _ AMQPError).
  - left. vm_compute. reflexivity.
  - reflexivity.
  - reflexivity.
Defined.

(** C9 as stated fails: a message with an item id and no text fails
    validation and is acked although no record was published. *)
Lemma C9_counterexample :
  calls (Main.process_message Demo.basic_env (JsonObject Demo.id_only_raw)
           initial_stats).1 = [AckCall]
  /\ In AckCall
       (calls (Main.process_message Demo.basic_env (JsonObject Demo.id_only_raw)
                 initial_stats).1)
  /\ forall r, ~ In (PublishCall r)
                 (calls (Main.process_message Demo.basic_env
                           (JsonObject Demo.id_only_raw) initial_stats).1).
Proof.
  assert (H : calls (Main.process_message Demo.basic_env
                       (JsonObject Demo.id_only_raw) initial_stats).1
              = [AckCall]) by (vm_compute; reflexivity).
  rewrite H. split; [done|]. split; [by left|].
  intros r [Hr|Hr]; [discriminate | done].
Qed.

(** * The claims on the fused embedding and on the dimension check *)

Section FusionLemmas.

#[local] Open Scope R_scope.








End FusionLemmas.

Section EnhancedLemmas.

Variable convert : gmap string jval -> res (option (gmap string pyval)).




End EnhancedLemmas.

(** With the sources as they stand, where the attribute lookup of
    [convert_to_normalized] raises, the enhanced worker requeues every JSON
    object and publishes nothing. *)
Lemma enhanced_missing_converter E (raw : gmap string jval) st :
  MainEnhanced.process_message (fun _ => Raise AttributeError) E
    (JsonObject raw) st
  = (on_exception E [] AttributeError, MainEnhanced.bump_errors st).
Proof. done. Qed.


Section FusionClaims.

#[local] Open Scope R_scope.


End FusionClaims.

Section FusionWitnesses.

#[local] Open Scope R_scope.






End FusionWitnesses.

Section DimensionClaim.





End DimensionClaim.
